(** * AGIdentity Python client (examples/python-client.py)

    A shallow embedding of the example client and of its demonstration
    driver.  The client is glue code around the [requests] library: every
    method reads [self.api_url], builds a URL and possibly a JSON body,
    hands them to [requests.get] / [requests.post] and returns
    [response.json()].

    What the embedding keeps from Python:
    - values that travel as JSON are [PyVal] (None, bool, int, float, str,
      list, dict with text keys, in insertion order); a text is kept as
      the bytes of its UTF-8 encoding, and what Python does per character
      ([v[:n]]) is done per encoded character;
    - objects live in a heap and are referred to by address; an instance is
      its attribute dictionary ([__dict__]), so [self.api_url = api_url] is
      a heap update and [self.api_url] a lookup that can raise
      [AttributeError];
    - effects are threaded through a state-and-exception monad [Py] over a
      [World]: the heap, the state of whatever is behind [requests], the
      record of every [requests] call with its outcome, and the record of
      every [print] with its outcome;
    - [requests] itself is an interface ([Class Requests]): the code only
      calls [requests.get(url)], [requests.post(url, json=...)] and
      [response.json()], and nothing in the client constrains what those
      do; the console behind [print] is an interface too ([Class Console]):
      [print] raises when the console cannot take the text. *)

From Stdlib Require Import ZArith String List Ascii.
From stdpp Require Import base option list gmap strings.

Local Open Scope string_scope.
Local Open Scope Z_scope.
Local Open Scope list_scope.

(** ** Values *)

#[warnings="-register-all"]
Inductive PyVal : Type :=
| PNone
| PBool (b : bool)
| PInt (n : Z)
| PFloat (bits : Z)            (* an IEEE-754 double, kept as its bit pattern *)
| PStr (s : string)             (* a text, as its UTF-8 encoding *)
| PList (items : list PyVal)
| PDict (items : list (string * PyVal)).

(** A dict literal / decoded JSON object: items in insertion order, keys
    pairwise distinct (as in any Python dict). *)
Abbreviation Dict := (list (string * PyVal)).

Fixpoint dict_get (k : string) (d : Dict) : option PyVal :=
  match d with
  | [] => None
  | (k', v) :: d' => if decide (k' = k) then Some v else dict_get k d'
  end.

(** ** Exceptions *)

Inductive PyExc : Type :=
| ConnectionError                     (* requests.exceptions.ConnectionError *)
| Timeout                             (* requests.exceptions.Timeout *)
| RequestException (cls : string)     (* any other exception of requests *)
| JSONDecodeError                     (* raised by response.json() *)
| KeyError (key : string)
| TypeError
| AttributeError (attr : string)
| UnicodeEncodeError                  (* raised by print *)
| OSError.                            (* raised by print *)

Inductive Result (A : Type) : Type :=
| Ok (a : A)
| Raise (e : PyExc).
Arguments Ok {A} a.
Arguments Raise {A} e.

(** ** The [requests] library, as the client sees it *)

(** A response object: the client only ever calls [.json()] on it and never
    looks at the status.  [resp_json = None] stands for a body that is not
    JSON, on which [.json()] raises. *)
Record Response : Type := mkResponse {
  status_code : Z;
  resp_json : option PyVal
}.

Inductive Method : Type := GET | POST.

(** One call into [requests]: [requests.get(url)] has no [json=] argument. *)
Record Call : Type := mkCall {
  c_method : Method;
  c_url : string;
  c_json : option Dict
}.

Record Exchange : Type := mkExchange {
  ex_call : Call;
  ex_outcome : PyExc + Response
}.

Class Requests (Net : Type) : Type := {
  requests_get : string -> Net -> (PyExc + Response) * Net;
  requests_post : string -> Dict -> Net -> (PyExc + Response) * Net
}.

(** ** Objects, console and the world *)

Abbreviation addr := nat.
(** An instance's [__dict__].  Attribute values are texts: the one
    attribute the class ever sets is the base URL. *)
Abbreviation Obj := (gmap string string).

(** An f-string as printed: literal pieces and formatted values. *)
Inductive Frag : Type :=
| Lit (s : string)
| Fmt (v : PyVal).

(** One [print]: the text handed to the console and, when the console
    did not take it, the exception that [print] raised. *)
Record Write : Type := mkWrite {
  w_line : list Frag;
  w_error : option PyExc
}.

(** The console behind [sys.stdout]: given what was printed so far and the
    text of a [print], whether the text goes out ([None]) or [print] raises
    ([UnicodeEncodeError] when the encoding of the console has no code for
    a character of the text, [OSError] when the stream is gone). *)
Class Console : Type := {
  console_write : list Write -> list Frag -> option PyExc
}.

Record World (Net : Type) : Type := mkWorld {
  net : Net;
  heap : list Obj;
  wire : list Exchange;       (* every requests call so far, oldest first *)
  stdout : list Write         (* every print so far, oldest first *)
}.
Arguments mkWorld {Net} _ _ _ _.
Arguments net {Net} _.
Arguments heap {Net} _.
Arguments wire {Net} _.
Arguments stdout {Net} _.

(** ** The monad of Python computations *)

Definition Py (Net : Type) (A : Type) : Type :=
  World Net -> Result A * World Net.

Section Monad.
Context {Net : Type}.

Definition ret {A} (a : A) : Py Net A := fun w => (Ok a, w).

Definition raise {A} (e : PyExc) : Py Net A := fun w => (Raise e, w).

Definition bind {A B} (m : Py Net A) (k : A -> Py Net B) : Py Net B :=
  fun w =>
    match m w with
    | (Ok a, w') => k a w'
    | (Raise e, w') => (Raise e, w')
    end.
End Monad.

Declare Scope py_scope.
Delimit Scope py_scope with py.
Notation "x <- m ;; k" := (bind m (fun x => k))
  (at level 100, m at next level, right associativity) : py_scope.
Notation "m ;; k" := (bind m (fun _ => k))
  (at level 100, right associativity) : py_scope.
Local Open Scope py_scope.

(** ** Texts *)

(** In UTF-8 a character is one byte that is not of the form [10xxxxxx],
    followed by the continuation bytes [10xxxxxx] that belong to it (a lone
    surrogate, which JSON can deliver, is kept under the same scheme). *)
Definition is_continuation (a : ascii) : bool :=
  match a with
  | Ascii _ _ _ _ _ _ b6 b7 => b7 && negb b6
  end.

(** The number of characters of a text. *)
Fixpoint char_count (s : string) : nat :=
  match s with
  | EmptyString => O
  | String a s' =>
      if is_continuation a then char_count s' else S (char_count s')
  end.

(** The first [n] characters of a text: [s[:n]]. *)
Fixpoint take_chars (n : nat) (s : string) : string :=
  match s with
  | EmptyString => EmptyString
  | String a s' =>
      if is_continuation a then String a (take_chars n s')
      else
        match n with
        | O => EmptyString
        | S k => String a (take_chars k s')
        end
  end.

Section Primitives.
Context {Net : Type} {R : Requests Net} {C : Console}.

(** [object.__new__]: a fresh instance with an empty [__dict__]. *)
Definition new_object : Py Net addr :=
  fun w => (Ok (length (heap w)),
            mkWorld (net w) (heap w ++ [∅]) (wire w) (stdout w)).

(** [obj.name = value] *)
Definition setattr (o : addr) (name value : string) : Py Net unit :=
  fun w =>
    match heap w !! o with
    | Some d =>
        (Ok tt, mkWorld (net w) (<[o := <[name := value]> d]> (heap w))
                        (wire w) (stdout w))
    | None => (Raise (AttributeError name), w)
    end.

(** [obj.name] *)
Definition getattr (o : addr) (name : string) : Py Net string :=
  fun w =>
    match heap w !! o ≫= (fun d : Obj => d !! name) with
    | Some v => (Ok v, w)
    | None => (Raise (AttributeError name), w)
    end.

Definition perform (c : Call)
    (run : Net -> (PyExc + Response) * Net) : Py Net Response :=
  fun w =>
    let '(out, n') := run (net w) in
    let w' := mkWorld n' (heap w) (wire w ++ [mkExchange c out]) (stdout w) in
    match out with
    | inl e => (Raise e, w')
    | inr r => (Ok r, w')
    end.

(** [requests.get(url)] *)
Definition get (url : string) : Py Net Response :=
  perform (mkCall GET url None) (requests_get url).

(** [requests.post(url, json=body)] *)
Definition post (url : string) (body : Dict) : Py Net Response :=
  perform (mkCall POST url (Some body)) (requests_post url body).

(** [response.json()] *)
Definition json (response : Response) : Py Net PyVal :=
  match resp_json response with
  | Some v => ret v
  | None => raise JSONDecodeError
  end.

(** [v[key]] for a text key. *)
Definition getitem (v : PyVal) (key : string) : Py Net PyVal :=
  match v with
  | PDict d =>
      match dict_get key d with
      | Some x => ret x
      | None => raise (KeyError key)
      end
  | _ => raise TypeError
  end.

(** [v[:n]]: text and lists can be sliced, nothing else that JSON
    decoding produces can (a dict raises as well: [TypeError] up to
    Python 3.11, [KeyError] on the slice from 3.12 on; the embedding keeps
    [TypeError]).  A text is cut after its first [n] characters. *)
Definition slice_to (n : nat) (v : PyVal) : Py Net PyVal :=
  match v with
  | PStr s => ret (PStr (take_chars n s))
  | PList l => ret (PList (take n l))
  | _ => raise TypeError
  end.

(** [print(line)]: the text goes to the console, or [print] raises what
    the console raises and nothing of the text comes out. *)
Definition print (line : list Frag) : Py Net unit :=
  fun w =>
    let out := console_write (stdout w) line in
    let w' := mkWorld (net w) (heap w) (wire w)
                      (stdout w ++ [mkWrite line out]) in
    match out with
    | None => (Ok tt, w')
    | Some e => (Raise e, w')
    end.
End Primitives.

(** ** The client *)

Definition AGID_API : string := "http://localhost:3000".

Module AGIdentityClient.
Section Methods.
Context {Net : Type} {R : Requests Net}.

(** Keyword parameters with a default are [option]s: [None] is "not
    passed". *)

Definition __init__ (self : addr) (api_url : option string) : Py Net unit :=
  setattr self "api_url" (default AGID_API api_url).

(** [AGIdentityClient(api_url)] *)
Definition new (api_url : option string) : Py Net addr :=
  self <- new_object;;
  __init__ self api_url;;
  ret self.

Definition get_identity (self : addr) : Py Net PyVal :=
  api_url <- getattr self "api_url";;
  response <- get (api_url +:+ "/api/identity");;
  json response.

Definition sign (self : addr) (message : PyVal) (protocol : option PyVal)
    : Py Net PyVal :=
  let protocol := default (PStr "agent message") protocol in
  api_url <- getattr self "api_url";;
  response <- post (api_url +:+ "/api/sign")
                   [("message", message); ("protocol", protocol)];;
  json response.

Definition encrypt (self : addr) (data : PyVal)
    (protocol key_id counterparty : option PyVal) : Py Net PyVal :=
  let protocol := default (PStr "agent memory") protocol in
  let key_id := default (PStr "default") key_id in
  let counterparty := default (PStr "self") counterparty in
  api_url <- getattr self "api_url";;
  response <- post (api_url +:+ "/api/encrypt")
                   [("data", data); ("protocol", protocol);
                    ("keyId", key_id); ("counterparty", counterparty)];;
  json response.

Definition decrypt (self : addr) (ciphertext : PyVal)
    (protocol key_id counterparty : option PyVal) : Py Net PyVal :=
  let protocol := default (PStr "agent memory") protocol in
  let key_id := default (PStr "default") key_id in
  let counterparty := default (PStr "self") counterparty in
  api_url <- getattr self "api_url";;
  response <- post (api_url +:+ "/api/decrypt")
                   [("ciphertext", ciphertext); ("protocol", protocol);
                    ("keyId", key_id); ("counterparty", counterparty)];;
  json response.

Definition check_balance (self : addr) : Py Net PyVal :=
  api_url <- getattr self "api_url";;
  response <- get (api_url +:+ "/api/balance");;
  json response.
End Methods.
End AGIdentityClient.

(** ** Call sites *)

(** One call of a client method, with the arguments as the caller wrote
    them. *)
Inductive Op : Type :=
| GetIdentity
| Sign (message : PyVal) (protocol : option PyVal)
| Encrypt (data : PyVal) (protocol key_id counterparty : option PyVal)
| Decrypt (ciphertext : PyVal) (protocol key_id counterparty : option PyVal)
| CheckBalance.

Section CallSites.
Context {Net : Type} {R : Requests Net}.

Definition invoke (self : addr) (op : Op) : Py Net PyVal :=
  match op with
  | GetIdentity => AGIdentityClient.get_identity self
  | Sign m p => AGIdentityClient.sign self m p
  | Encrypt d p k c => AGIdentityClient.encrypt self d p k c
  | Decrypt x p k c => AGIdentityClient.decrypt self x p k c
  | CheckBalance => AGIdentityClient.check_balance self
  end.

(** The world after a caller has made the calls [ops] one after the
    other on [self], whatever each of them returned or raised. *)
Definition after (self : addr) (ops : list Op) (w : World Net) : World Net :=
  fold_left (fun w op => snd (invoke self op w)) ops w.

(** [encrypt] followed by [decrypt] of the returned ciphertext field under
    the same context, as lines 87-92 of the driver do. *)
Definition round_trip (self : addr) (d p k c : string) : Py Net PyVal :=
  encrypted <- AGIdentityClient.encrypt self (PStr d)
                 (Some (PStr p)) (Some (PStr k)) (Some (PStr c));;
  ciphertext <- getitem encrypted "ciphertext";;
  decrypted <- AGIdentityClient.decrypt self ciphertext
                 (Some (PStr p)) (Some (PStr k)) (Some (PStr c));;
  getitem decrypted "plaintext".
End CallSites.

(** ** Observations on a run *)

Section Observations.
Context {Net : Type} {A : Type}.

(** The [requests] calls made by [m] when started in [w]. *)
Definition issued (m : Py Net A) (w : World Net) : list Exchange :=
  drop (length (wire w)) (wire (snd (m w))).

Definition calls_of (m : Py Net A) (w : World Net) : list Call :=
  map ex_call (issued m w).

(** Their HTTP methods and URLs, their JSON bodies, and what came back. *)
Definition targets (m : Py Net A) (w : World Net) : list (Method * string) :=
  map (fun c => (c_method c, c_url c)) (calls_of m w).

Definition bodies (m : Py Net A) (w : World Net) : list (option Dict) :=
  map c_json (calls_of m w).

Definition outcomes (m : Py Net A) (w : World Net)
    : list (PyExc + Response) :=
  map ex_outcome (issued m w).
End Observations.

(** The base URL stored in the instance at [self], if any. *)
Definition client_url {Net} (w : World Net) (self : addr) : option string :=
  heap w !! self ≫= (fun d : Obj => d !! "api_url").

(** What a client method makes of the outcome of its [requests] call:
    the exception if [requests] raised, otherwise [response.json()]. *)
Definition decoded (out : PyExc + Response) : Result PyVal :=
  match out with
  | inl e => Raise e
  | inr r =>
      match resp_json r with
      | Some v => Ok v
      | None => Raise JSONDecodeError
      end
  end.

(** The error, if any, with which the client method that made this exchange
    ends. *)
Definition failure (ex : Exchange) : option PyExc :=
  match decoded (ex_outcome ex) with
  | Ok _ => None
  | Raise e => Some e
  end.

(** [m] hides no failed call: whatever it adds to the record of calls, a
    call in there that failed made [m] end with that very exception. *)
Definition faithful {Net A} (m : Py Net A) : Prop :=
  forall w, exists l,
    wire (snd (m w)) = wire w ++ l
    /\ forall ex e, ex ∈ l -> failure ex = Some e -> fst (m w) = Raise e.

(** Values that [v[:n]] accepts. *)
Definition can_slice (v : PyVal) : Prop :=
  match v with
  | PStr _ | PList _ => True
  | _ => False
  end.

(** ** The demonstration driver *)

Definition nl : string := String (ascii_of_nat 10) EmptyString.

Section Driver.
Context {Net : Type} {R : Requests Net} {C : Console}.

(** The body of [if __name__ == "__main__":]. *)
Definition main : Py Net unit :=
  agent <- AGIdentityClient.new None;;
  print [Lit ("🤖 Python Agent with AGIdentity" +:+ nl)];;
  identity <- AGIdentityClient.get_identity agent;;
  publicKey <- getitem identity "publicKey";;
  shown <- slice_to 32 publicKey;;
  print [Lit "✅ Identity: "; Fmt shown; Lit "..."];;
  sig <- AGIdentityClient.sign agent
           (PStr "I am a Python agent with onchain identity") None;;
  signature <- getitem sig "signature";;
  shown <- slice_to 64 signature;;
  print [Lit "✅ Signed: "; Fmt shown; Lit "..."];;
  encrypted <- AGIdentityClient.encrypt agent (PStr "My secret memory")
                 None None None;;
  ciphertext <- getitem encrypted "ciphertext";;
  shown <- slice_to 64 ciphertext;;
  print [Lit "✅ Encrypted: "; Fmt shown; Lit "..."];;
  ciphertext <- getitem encrypted "ciphertext";;
  decrypted <- AGIdentityClient.decrypt agent ciphertext
                 None (Some (PStr "default")) None;;
  plaintext <- getitem decrypted "plaintext";;
  print [Lit "✅ Decrypted: "; Fmt plaintext];;
  balance <- AGIdentityClient.check_balance agent;;
  satoshis <- getitem balance "balance";;
  print [Lit "✅ Balance: "; Fmt satoshis; Lit (" satoshis" +:+ nl)];;
  print [Lit "🔌 Universal plugin working with Python!"].

(** How the interpreter ends the process: status 0 when the script runs
    to its end, status 1 with the traceback of the exception that nothing
    caught. *)
Record Exit : Type := mkExit {
  exit_status : Z;
  traceback : option PyExc
}.

Definition run_script (w : World Net) : Exit * World Net :=
  match main w with
  | (Ok _, w') => (mkExit 0 None, w')
  | (Raise e, w') => (mkExit 1 (Some e), w')
  end.
End Driver.

(** ** The request behind each call *)

(** The [requests] call that the body of each method builds from the base
    URL and the arguments ([invoke_run] below shows that this is the call
    the method makes). *)
Definition op_call (base : string) (op : Op) : Call :=
  match op with
  | GetIdentity => mkCall GET (base +:+ "/api/identity") None
  | Sign m p =>
      mkCall POST (base +:+ "/api/sign")
        (Some [("message", m);
               ("protocol", default (PStr "agent message") p)])
  | Encrypt d p k c =>
      mkCall POST (base +:+ "/api/encrypt")
        (Some [("data", d);
               ("protocol", default (PStr "agent memory") p);
               ("keyId", default (PStr "default") k);
               ("counterparty", default (PStr "self") c)])
  | Decrypt x p k c =>
      mkCall POST (base +:+ "/api/decrypt")
        (Some [("ciphertext", x);
               ("protocol", default (PStr "agent memory") p);
               ("keyId", default (PStr "default") k);
               ("counterparty", default (PStr "self") c)])
  | CheckBalance => mkCall GET (base +:+ "/api/balance") None
  end.

(** Handing a call to the library. *)
Definition send {Net} {R : Requests Net} (c : Call)
    : Net -> (PyExc + Response) * Net :=
  match c_method c with
  | GET => requests_get (c_url c)
  | POST => requests_post (c_url c) (default [] (c_json c))
  end.

(** ** Services used to exercise the client *)

(** A stateless stand-in for [requests]: the outcome is a function of the
    call alone. *)
Definition canned (answer : Call -> PyExc + Response) : Requests unit := {|
  requests_get url n := (answer (mkCall GET url None), n);
  requests_post url body n := (answer (mkCall POST url (Some body)), n)
|}.

Definition replies (status : Z) (body : PyVal) : PyExc + Response :=
  inr (mkResponse status (Some body)).

(** Nothing listens at the base URL. *)
Definition unreachable : Requests unit :=
  canned (fun _ => inl ConnectionError).

(** A service that answers every request with status 500 and a JSON error
    document. *)
Definition failing : Requests unit :=
  canned (fun _ => replies 500 (PDict [("error", PStr "internal error")])).

(** A service that answers every request with status 200 and [{}]. *)
Definition bare : Requests unit :=
  canned (fun _ => replies 200 (PDict [])).

(** A service that answers with a page that is not JSON. *)
Definition garbled : Requests unit :=
  canned (fun _ => inr (mkResponse 200 None)).

(** The mocked service of the specification's last scenario. *)
Definition mocked : Requests unit :=
  canned (fun _ => replies 200 (PDict [("publicKey", PStr "02abc...")])).

(** A service at the default base URL with one fixed answer per endpoint. *)
Definition demo_answer (c : Call) : PyExc + Response :=
  if decide (c_url c = AGID_API +:+ "/api/identity") then
    replies 200 (PDict [("publicKey", PStr "02abc")])
  else if decide (c_url c = AGID_API +:+ "/api/sign") then
    replies 200 (PDict [("signature", PStr "3045")])
  else if decide (c_url c = AGID_API +:+ "/api/encrypt") then
    replies 200 (PDict [("ciphertext", PStr "c1ph3r")])
  else if decide (c_url c = AGID_API +:+ "/api/decrypt") then
    replies 200 (PDict [("plaintext", PStr "My secret memory")])
  else if decide (c_url c = AGID_API +:+ "/api/balance") then
    replies 200 (PDict [("balance", PInt 1000)])
  else replies 404 (PDict []).

Definition demo : Requests unit := canned demo_answer.

(** A service with state: it numbers the requests it receives, so that no
    two answers are the same. *)
Definition counting : Requests nat := {|
  requests_get url n := (replies 200 (PDict [("seen", PInt (Z.of_nat n))]), S n);
  requests_post url body n :=
    (replies 200 (PDict [("seen", PInt (Z.of_nat n))]), S n)
|}.

(** The empty world of a process that has just started, and a world in
    which one client configured with [base] already exists at address 0. *)
Definition boot {Net} (n : Net) : World Net := mkWorld n [] [] [].

Definition configured {Net} (n : Net) (base : string) : World Net :=
  mkWorld n [{["api_url" := base]}] [] [].

(** Modelled from the spec: the remote identity service behind
    [/api/encrypt] and [/api/decrypt], whose implementation is not among the
    client's sources.  Section 6 gives the two endpoints: a POST of
    [{data, protocol, keyId, counterparty}] is answered with a [ciphertext]
    text, a POST of [{ciphertext, protocol, keyId, counterparty}] with a
    [plaintext] text.  Section 1 calls the encryption symmetric, and the
    glossary says that the protocol tag, the key identifier and the
    counterparty are what the service derives or selects the key from;
    section 4.1 says that decryption fails in the service when the
    ciphertext is malformed or the context does not match the one of
    encryption.  So the service is a key derivation [derive] from the three
    labels and a symmetric cipher [encipher] / [decipher] under the derived
    key, all three left open.  The service is reachable at [base] and every
    request gets an answer; other requests are answered 404. *)
Section RemoteService.
Variable base : string.
Variable Key : Type.
Variable derive : string -> string -> string -> Key.
Variable encipher : Key -> string -> string.
Variable decipher : Key -> string -> option string.

Definition text_field (name : string) (body : Dict) : option string :=
  match dict_get name body with
  | Some (PStr s) => Some s
  | _ => None
  end.

Definition rejected : PyExc + Response :=
  replies 400 (PDict [("error", PStr "bad request")]).

Definition service_encrypt (body : Dict) : PyExc + Response :=
  match text_field "data" body, text_field "protocol" body,
        text_field "keyId" body, text_field "counterparty" body with
  | Some d, Some p, Some k, Some c =>
      replies 200 (PDict [("ciphertext", PStr (encipher (derive p k c) d))])
  | _, _, _, _ => rejected
  end.

Definition service_decrypt (body : Dict) : PyExc + Response :=
  match text_field "ciphertext" body, text_field "protocol" body,
        text_field "keyId" body, text_field "counterparty" body with
  | Some x, Some p, Some k, Some c =>
      match decipher (derive p k c) x with
      | Some d => replies 200 (PDict [("plaintext", PStr d)])
      | None => rejected
      end
  | _, _, _, _ => rejected
  end.

Definition service_answer (c : Call) : PyExc + Response :=
  match c_method c, c_json c with
  | POST, Some body =>
      if decide (c_url c = base +:+ "/api/encrypt") then service_encrypt body
      else if decide (c_url c = base +:+ "/api/decrypt") then
        service_decrypt body
      else replies 404 (PDict [])
  | _, _ => replies 404 (PDict [])
  end.

Definition remote_service : Requests unit := canned service_answer.
End RemoteService.

(** A cipher to run the modelled service with.  The key is the three labels
    written one after the other; the ciphertext is the plaintext behind the
    key, and deciphering takes the key off again or fails when the text
    does not begin with it. *)
Definition toy_derive (p k c : string) : string :=
  p +:+ "/" +:+ k +:+ "/" +:+ c +:+ ":".

Definition toy_encipher (key d : string) : string := key +:+ d.

Fixpoint strip_prefix (t s : string) : option string :=
  match t with
  | EmptyString => Some s
  | String a t' =>
      match s with
      | EmptyString => None
      | String b s' => if decide (a = b) then strip_prefix t' s' else None
      end
  end.

Definition toy_decipher (key x : string) : option string :=
  strip_prefix key x.

(** ** Consoles used to exercise the driver *)

(** A console that takes every text. *)
Definition lenient : Console := {| console_write _ _ := None |}.

Definition is_ascii (s : string) : bool :=
  forallb (fun a => match a with Ascii _ _ _ _ _ _ _ b7 => negb b7 end)
          (list_ascii_of_string s).

(** A console with the ASCII encoding, as far as literals and text values
    go: a line with a byte outside ASCII in one of them is refused. *)
Definition ascii_terminal : Console := {|
  console_write _ line :=
    if forallb (fun f => match f with
                         | Lit s => is_ascii s
                         | Fmt (PStr s) => is_ascii s
                         | Fmt _ => true
                         end) line
    then None else Some UnicodeEncodeError
|}.

(** ** Further observations *)

(** The [print]s made by [m] when started in [w], with their outcomes, and
    the texts among them that came out on the console. *)
Definition writes {Net A} (m : Py Net A) (w : World Net) : list Write :=
  drop (length (stdout w)) (stdout (snd (m w))).

Definition came_out (ws : list Write) : list (list Frag) :=
  omap (fun x => match w_error x with
                 | None => Some (w_line x)
                 | Some _ => None
                 end) ws.

Definition printed {Net A} (m : Py Net A) (w : World Net)
    : list (list Frag) :=
  came_out (writes m w).

(** The field that the driver reads in the answer to a request, by the URL
    of the request, and whether it slices the value. *)
Definition driver_reads (c : Call) : option (string * bool) :=
  if decide (c_url c = AGID_API +:+ "/api/identity") then
    Some ("publicKey", true)
  else if decide (c_url c = AGID_API +:+ "/api/sign") then
    Some ("signature", true)
  else if decide (c_url c = AGID_API +:+ "/api/encrypt") then
    Some ("ciphertext", true)
  else if decide (c_url c = AGID_API +:+ "/api/decrypt") then
    Some ("plaintext", false)
  else if decide (c_url c = AGID_API +:+ "/api/balance") then
    Some ("balance", false)
  else None.

(** The call succeeded and its answer is a JSON object that has the field
    the driver reads, with a value that can be sliced where the driver
    slices it. *)
Definition well_answered (ex : Exchange) : Prop :=
  exists d,
    decoded (ex_outcome ex) = Ok (PDict d)
    /\ match driver_reads (ex_call ex) with
       | Some (field, slices) =>
           exists v, dict_get field d = Some v
                     /\ (slices = true -> can_slice v)
       | None => True
       end.

(** The world after calls made one after the other on several clients,
    each call given as the instance and the operation. *)
Definition interleaved {Net} {R : Requests Net} (calls : list (addr * Op))
    (w : World Net) : World Net :=
  fold_left (fun w c => snd (invoke (fst c) (snd c) w)) calls w.

(** A call with every keyword the caller left out written out. *)
Definition explicit (op : Op) : Op :=
  match op with
  | GetIdentity => GetIdentity
  | Sign m p => Sign m (Some (default (PStr "agent message") p))
  | Encrypt d p k c =>
      Encrypt d (Some (default (PStr "agent memory") p))
        (Some (default (PStr "default") k))
        (Some (default (PStr "self") c))
  | Decrypt x p k c =>
      Decrypt x (Some (default (PStr "agent memory") p))
        (Some (default (PStr "default") k))
        (Some (default (PStr "self") c))
  | CheckBalance => CheckBalance
  end.

(** The value of [v[:n]] where it has one. *)
Definition sliced (n : nat) (v : PyVal) : option PyVal :=
  match v with
  | PStr s => Some (PStr (take_chars n s))
  | PList l => Some (PList (take n l))
  | _ => None
  end.

(** The demo service when it goes away after a number of answers: the
    state is the number of requests still answered. *)
Definition flaky : Requests nat := {|
  requests_get url n :=
    match n with
    | O => (inl ConnectionError, O)
    | S k => (demo_answer (mkCall GET url None), k)
    end;
  requests_post url body n :=
    match n with
    | O => (inl ConnectionError, O)
    | S k => (demo_answer (mkCall POST url (Some body)), k)
    end
|}.

(** The demo service with a public key of forty times [é]. *)
Definition accented_answer (c : Call) : PyExc + Response :=
  if decide (c_url c = AGID_API +:+ "/api/identity") then
    replies 200
      (PDict [("publicKey",
               PStr (String.concat EmptyString (replicate 40 "é")))])
  else demo_answer c.

(** * Facts about the embedding *)

(** ** The monad *)

Section MonadFacts.
Context {Net : Type}.

Lemma bind_ok {A B} (m : Py Net A) (k : A -> Py Net B) w a w' :
  m w = (Ok a, w') -> bind m k w = k a w'.
Proof. intros H. unfold bind. by rewrite H. Qed.

Lemma bind_raise {A B} (m : Py Net A) (k : A -> Py Net B) w e w' :
  m w = (Raise e, w') -> bind m k w = (Raise e, w').
Proof. intros H. unfold bind. by rewrite H. Qed.

Lemma issued_extends {A} (m : Py Net A) w l :
  wire (snd (m w)) = wire w ++ l -> issued m w = l.
Proof. intros H. unfold issued. rewrite H. apply drop_app_length. Qed.
End MonadFacts.

(** ** One call of a method *)

Section CallFacts.
Context {Net : Type} {R : Requests Net}.

(** The whole effect of a method call on a configured client: one call
    into [requests], recorded with its outcome; the result is that
    outcome decoded; nothing else in the world moves. *)
Lemma invoke_run self op (w : World Net) base :
  client_url w self = Some base ->
  invoke self op w =
    (decoded (fst (send (op_call base op) (net w))),
     mkWorld (snd (send (op_call base op) (net w))) (heap w)
             (wire w ++ [mkExchange (op_call base op)
                           (fst (send (op_call base op) (net w)))])
             (stdout w)).
Proof.
  unfold client_url. intros Hu.
  destruct op; cbn [invoke op_call];
    unfold AGIdentityClient.get_identity, AGIdentityClient.sign,
      AGIdentityClient.encrypt, AGIdentityClient.decrypt,
      AGIdentityClient.check_balance, bind, getattr, get, post, perform,
      send, json; cbn; rewrite Hu;
    match goal with
    | |- context [requests_get ?u ?n] =>
        destruct (requests_get u n) as [[e|r] n']
    | |- context [requests_post ?u ?b ?n] =>
        destruct (requests_post u b n) as [[e|r] n']
    end; cbn; try reflexivity;
    destruct (resp_json r); reflexivity.
Qed.

(** On an address that holds no configured client the attribute lookup
    fails before anything is sent. *)
Lemma invoke_unbound self op (w : World Net) :
  client_url w self = None ->
  invoke self op w = (Raise (AttributeError "api_url"), w).
Proof.
  unfold client_url. intros Hu.
  destruct op; cbn [invoke];
    unfold AGIdentityClient.get_identity, AGIdentityClient.sign,
      AGIdentityClient.encrypt, AGIdentityClient.decrypt,
      AGIdentityClient.check_balance, bind, getattr; cbn;
    by rewrite Hu.
Qed.

Lemma issued_invoke self op (w : World Net) base :
  client_url w self = Some base ->
  issued (invoke self op) w =
    [mkExchange (op_call base op) (fst (send (op_call base op) (net w)))].
Proof.
  intros Hu. apply issued_extends. by rewrite (invoke_run _ _ _ _ Hu).
Qed.

Lemma result_invoke self op (w : World Net) base :
  client_url w self = Some base ->
  fst (invoke self op w) = decoded (fst (send (op_call base op) (net w))).
Proof. intros Hu. by rewrite (invoke_run _ _ _ _ Hu). Qed.

Lemma heap_invoke self op (w : World Net) :
  heap (snd (invoke self op w)) = heap w.
Proof.
  destruct (client_url w self) as [base|] eqn:Hu.
  - by rewrite (invoke_run _ _ _ _ Hu).
  - by rewrite (invoke_unbound _ _ _ Hu).
Qed.

Lemma heap_after self ops (w : World Net) :
  heap (after self ops w) = heap w.
Proof.
  revert w. induction ops as [|op ops IH]; intros w; [done|].
  cbn. unfold after in IH. rewrite IH. apply heap_invoke.
Qed.

Lemma client_url_after self ops (w : World Net) o :
  client_url (after self ops w) o = client_url w o.
Proof. unfold client_url. by rewrite heap_after. Qed.

(** Construction: a new instance whose only attribute is [api_url]. *)
Lemma new_run api_url (w : World Net) :
  AGIdentityClient.new api_url w =
    (Ok (length (heap w)),
     mkWorld (net w)
             (heap w ++ [{["api_url" := default AGID_API api_url]}])
             (wire w) (stdout w)).
Proof.
  unfold AGIdentityClient.new, AGIdentityClient.__init__, bind, new_object,
    setattr, ret. cbn.
  rewrite lookup_app_r, Nat.sub_diag by done. cbn.
  rewrite insert_app_r_alt, Nat.sub_diag by done. cbn.
  by rewrite insert_empty.
Qed.

Lemma client_url_new api_url (w : World Net) :
  client_url (snd (AGIdentityClient.new api_url w)) (length (heap w))
  = Some (default AGID_API api_url).
Proof.
  rewrite new_run. unfold client_url. cbn.
  rewrite lookup_app_r, Nat.sub_diag by done. cbn.
  by rewrite lookup_singleton_eq.
Qed.
End CallFacts.

(** * The claims *)

Section Requests.
Context {Net : Type} {R : Requests Net}.
Implicit Types (w : World Net) (self : addr) (base : string).

Local Ltac by_run H op :=
  unfold targets, bodies, outcomes, calls_of;
  let E := fresh "E" in
  pose proof (issued_invoke _ op _ _ H) as E; cbn [invoke] in E;
  rewrite E; reflexivity.

(** C1: on a client configured with [base], each operation makes exactly
    one HTTP request, with the method and path of the API table, on
    [base]: GET /api/identity, POST /api/sign, POST /api/encrypt,
    POST /api/decrypt and GET /api/balance. *)
Theorem operations_target_endpoints w self base :
  client_url w self = Some base ->
  targets (AGIdentityClient.get_identity self) w
    = [(GET, base +:+ "/api/identity")]
  /\ (forall m p,
        targets (AGIdentityClient.sign self m p) w
        = [(POST, base +:+ "/api/sign")])
  /\ (forall d p k c,
        targets (AGIdentityClient.encrypt self d p k c) w
        = [(POST, base +:+ "/api/encrypt")])
  /\ (forall x p k c,
        targets (AGIdentityClient.decrypt self x p k c) w
        = [(POST, base +:+ "/api/decrypt")])
  /\ targets (AGIdentityClient.check_balance self) w
      = [(GET, base +:+ "/api/balance")].
Proof.
  intros H. split; [|split; [|split; [|split]]]; intros.
  - by_run H GetIdentity.
  - by_run H (Sign m p).
  - by_run H (Encrypt d p k c).
  - by_run H (Decrypt x p k c).
  - by_run H CheckBalance.
Qed.

(** C2: the JSON body of each POST is exactly the listed fields, in the
    order of the source, with the defaults of the signatures:
    protocol "agent message" for [sign]; protocol "agent memory", key
    identifier "default" and counterparty "self" for [encrypt] and
    [decrypt]; the [key_id] parameter travels under the key [keyId]. *)
Theorem post_bodies_and_defaults w self base :
  client_url w self = Some base ->
  (forall message protocol,
      bodies (AGIdentityClient.sign self message protocol) w
      = [Some [("message", message);
               ("protocol", default (PStr "agent message") protocol)]])
  /\ (forall data protocol key_id counterparty,
        bodies (AGIdentityClient.encrypt self data protocol key_id
                  counterparty) w
        = [Some [("data", data);
                 ("protocol", default (PStr "agent memory") protocol);
                 ("keyId", default (PStr "default") key_id);
                 ("counterparty", default (PStr "self") counterparty)]])
  /\ (forall ciphertext protocol key_id counterparty,
        bodies (AGIdentityClient.decrypt self ciphertext protocol key_id
                  counterparty) w
        = [Some [("ciphertext", ciphertext);
                 ("protocol", default (PStr "agent memory") protocol);
                 ("keyId", default (PStr "default") key_id);
                 ("counterparty", default (PStr "self") counterparty)]]).
Proof.
  intros H. split; [|split]; intros.
  - by_run H (Sign message protocol).
  - by_run H (Encrypt data protocol key_id counterparty).
  - by_run H (Decrypt ciphertext protocol key_id counterparty).
Qed.
End Requests.

(** Witness of C1: a client on the default base URL. *)
Lemma operations_target_endpoints_witness :
  targets (AGIdentityClient.get_identity (R:=mocked) 0)
    (configured tt "http://localhost:3000")
  = [(GET, "http://localhost:3000/api/identity")]
  /\ targets (AGIdentityClient.sign (R:=mocked) 0 (PStr "Hello World") None)
       (configured tt "http://localhost:3000")
     = [(POST, "http://localhost:3000/api/sign")].
Proof.
  destruct (operations_target_endpoints (R:=mocked)
              (configured tt "http://localhost:3000") 0
              "http://localhost:3000" eq_refl) as (Hid & Hsign & _).
  split; [exact Hid | exact (Hsign (PStr "Hello World") None)].
Defined.

(** Witness of C2: [sign("Hello World")] and [encrypt("Secret data")] with
    every keyword left out. *)
Lemma post_bodies_and_defaults_witness :
  bodies (AGIdentityClient.sign (R:=bare) 0 (PStr "Hello World") None)
    (configured tt AGID_API)
  = [Some [("message", PStr "Hello World");
           ("protocol", PStr "agent message")]]
  /\ bodies (AGIdentityClient.encrypt (R:=bare) 0 (PStr "Secret data")
               None None None)
       (configured tt AGID_API)
     = [Some [("data", PStr "Secret data");
              ("protocol", PStr "agent memory");
              ("keyId", PStr "default");
              ("counterparty", PStr "self")]].
Proof.
  destruct (post_bodies_and_defaults (R:=bare) (configured tt AGID_API) 0
              AGID_API eq_refl) as (Hsign & Henc & _).
  split; [exact (Hsign (PStr "Hello World") None)
         | exact (Henc (PStr "Secret data") None None None)].
Defined.

Section Outcomes.
Context {Net : Type} {R : Requests Net}.
Implicit Types (w : World Net) (self : addr) (base : string).

(** C3, as the code has it: every operation makes one [requests] call; if
    that call raises (a refused connection raises [ConnectionError]) the
    operation raises the same exception; if a response arrives, its status
    is never looked at: the operation returns the decoded body whatever
    the status code, and raises [JSONDecodeError] when the body does not
    decode. *)
Theorem errors_come_from_transport_or_decoding w self base :
  client_url w self = Some base ->
  forall op, exists out,
    outcomes (invoke self op) w = [out]
    /\ (forall e, out = inl e -> fst (invoke self op w) = Raise e)
    /\ (forall r v,
          out = inr r -> resp_json r = Some v ->
          fst (invoke self op w) = Ok v)
    /\ (forall r,
          out = inr r -> resp_json r = None ->
          fst (invoke self op w) = Raise JSONDecodeError).
Proof.
  intros H op. exists (fst (send (op_call base op) (net w))).
  rewrite (result_invoke _ _ _ _ H). unfold outcomes.
  rewrite (issued_invoke _ _ _ _ H). split; [done|].
  unfold decoded. repeat split.
  - by intros e ->.
  - by intros r v -> ->.
  - by intros r -> ->.
Qed.

(** C4: whatever body comes back, the operation returns exactly the value
    [response.json()] decoded from it. *)
Theorem decoded_body_returned_unchanged w self base :
  client_url w self = Some base ->
  forall op r v,
    outcomes (invoke self op) w = [inr r] ->
    resp_json r = Some v ->
    fst (invoke self op w) = Ok v.
Proof.
  intros H op r v. unfold outcomes.
  rewrite (issued_invoke _ _ _ _ H), (result_invoke _ _ _ _ H). cbn.
  intros [= ->]. unfold decoded. by intros ->.
Qed.

(** C9: with text arguments, the empty text included, [sign], [encrypt]
    and [decrypt] always hand the request to [requests], the text sitting
    in the body as given; the result is the decoded outcome of that call,
    so the only exceptions are those of [requests] and of
    [response.json()]. *)
Theorem no_local_validation w self base :
  client_url w self = Some base ->
  (forall (m : string) (p : option string), exists out,
      issued (AGIdentityClient.sign self (PStr m) (PStr <$> p)) w
      = [mkExchange
           (mkCall POST (base +:+ "/api/sign")
              (Some [("message", PStr m);
                     ("protocol", PStr (default "agent message" p))]))
           out]
      /\ fst (AGIdentityClient.sign self (PStr m) (PStr <$> p) w)
         = decoded out)
  /\ (forall (d : string) (p k c : option string), exists out,
        issued (AGIdentityClient.encrypt self (PStr d)
                  (PStr <$> p) (PStr <$> k) (PStr <$> c)) w
        = [mkExchange
             (mkCall POST (base +:+ "/api/encrypt")
                (Some [("data", PStr d);
                       ("protocol", PStr (default "agent memory" p));
                       ("keyId", PStr (default "default" k));
                       ("counterparty", PStr (default "self" c))]))
             out]
        /\ fst (AGIdentityClient.encrypt self (PStr d)
                  (PStr <$> p) (PStr <$> k) (PStr <$> c) w)
           = decoded out)
  /\ (forall (x : string) (p k c : option string), exists out,
        issued (AGIdentityClient.decrypt self (PStr x)
                  (PStr <$> p) (PStr <$> k) (PStr <$> c)) w
        = [mkExchange
             (mkCall POST (base +:+ "/api/decrypt")
                (Some [("ciphertext", PStr x);
                       ("protocol", PStr (default "agent memory" p));
                       ("keyId", PStr (default "default" k));
                       ("counterparty", PStr (default "self" c))]))
             out]
        /\ fst (AGIdentityClient.decrypt self (PStr x)
                  (PStr <$> p) (PStr <$> k) (PStr <$> c) w)
           = decoded out).
Proof.
  intros H. split; [|split].
  - intros m p.
    pose proof (issued_invoke _ (Sign (PStr m) (PStr <$> p)) _ _ H) as Ei.
    pose proof (result_invoke _ (Sign (PStr m) (PStr <$> p)) _ _ H) as Er.
    cbn [invoke] in Ei, Er. rewrite Ei, Er.
    destruct p; cbn; eexists; split; reflexivity.
  - intros d p k c.
    pose proof (issued_invoke _
      (Encrypt (PStr d) (PStr <$> p) (PStr <$> k) (PStr <$> c)) _ _ H) as Ei.
    pose proof (result_invoke _
      (Encrypt (PStr d) (PStr <$> p) (PStr <$> k) (PStr <$> c)) _ _ H) as Er.
    cbn [invoke] in Ei, Er. rewrite Ei, Er.
    destruct p, k, c; cbn; eexists; split; reflexivity.
  - intros x p k c.
    pose proof (issued_invoke _
      (Decrypt (PStr x) (PStr <$> p) (PStr <$> k) (PStr <$> c)) _ _ H) as Ei.
    pose proof (result_invoke _
      (Decrypt (PStr x) (PStr <$> p) (PStr <$> k) (PStr <$> c)) _ _ H) as Er.
    cbn [invoke] in Ei, Er. rewrite Ei, Er.
    destruct p, k, c; cbn; eexists; split; reflexivity.
Qed.
End Outcomes.

(** C3 as stated fails: the service answers status 500 with a JSON error
    document, and [get_identity] returns that document instead of
    raising. *)
Lemma non_success_status_is_not_an_error :
  outcomes (AGIdentityClient.get_identity (R:=failing) 0)
    (configured tt AGID_API)
  = [inr (mkResponse 500 (Some (PDict [("error", PStr "internal error")])))]
  /\ fst (AGIdentityClient.get_identity (R:=failing) 0
            (configured tt AGID_API))
     = Ok (PDict [("error", PStr "internal error")])
  /\ (forall e,
        fst (AGIdentityClient.get_identity (R:=failing) 0
               (configured tt AGID_API)) <> Raise e).
Proof.
  split; [reflexivity|]. split; [reflexivity|].
  intros e. vm_compute. discriminate.
Qed.

(** Witness of C3: nothing listens and the operation raises
    [ConnectionError]; a page that is not JSON raises [JSONDecodeError];
    status 500 with a JSON body is returned as a value. *)
Lemma errors_come_from_transport_or_decoding_witness :
  fst (invoke (R:=unreachable) 0 CheckBalance (configured tt AGID_API))
  = Raise ConnectionError
  /\ fst (invoke (R:=garbled) 0 CheckBalance (configured tt AGID_API))
     = Raise JSONDecodeError
  /\ fst (invoke (R:=failing) 0 CheckBalance (configured tt AGID_API))
     = Ok (PDict [("error", PStr "internal error")]).
Proof.
  split; [|split].
  - destruct (errors_come_from_transport_or_decoding (R:=unreachable)
                (configured tt AGID_API) 0 AGID_API eq_refl CheckBalance)
      as (out & Hout & Hraise & _).
    apply Hraise. vm_compute in Hout. by injection Hout as <-.
  - destruct (errors_come_from_transport_or_decoding (R:=garbled)
                (configured tt AGID_API) 0 AGID_API eq_refl CheckBalance)
      as (out & Hout & _ & _ & Hjson).
    apply (Hjson (mkResponse 200 None)); [|reflexivity].
    vm_compute in Hout. by injection Hout as <-.
  - destruct (errors_come_from_transport_or_decoding (R:=failing)
                (configured tt AGID_API) 0 AGID_API eq_refl CheckBalance)
      as (out & Hout & _ & Hok & _).
    apply (Hok (mkResponse 500
                  (Some (PDict [("error", PStr "internal error")]))));
      [|reflexivity].
    vm_compute in Hout. by injection Hout as <-.
Defined.

(** Witness of C4: the mocked service of the specification. *)
Lemma decoded_body_returned_unchanged_witness :
  fst (invoke (R:=mocked) 0 GetIdentity (configured tt AGID_API))
  = Ok (PDict [("publicKey", PStr "02abc...")]).
Proof.
  apply (decoded_body_returned_unchanged (R:=mocked)
           (configured tt AGID_API) 0 AGID_API eq_refl GetIdentity
           (mkResponse 200 (Some (PDict [("publicKey", PStr "02abc...")]))));
    reflexivity.
Defined.

(** Witness of C9: the empty message is sent like any other. *)
Lemma no_local_validation_witness :
  exists out,
    issued (AGIdentityClient.sign (R:=bare) 0 (PStr EmptyString) None)
      (configured tt AGID_API)
    = [mkExchange
         (mkCall POST "http://localhost:3000/api/sign"
            (Some [("message", PStr EmptyString);
                   ("protocol", PStr "agent message")]))
         out]
    /\ fst (AGIdentityClient.sign (R:=bare) 0 (PStr EmptyString) None
              (configured tt AGID_API))
       = decoded out.
Proof.
  destruct (no_local_validation (R:=bare) (configured tt AGID_API) 0
              AGID_API eq_refl) as (Hsign & _).
  exact (Hsign EmptyString None).
Defined.

Section State.
Context {Net : Type} {R : Requests Net}.
Implicit Types (w : World Net) (self : addr) (base : string).

(** C5: construction creates an instance whose attribute dictionary holds
    only [api_url]; no operation, whatever its arguments and outcome,
    changes that instance or any other object, and so neither does any
    sequence of operations. *)
Theorem operations_leave_client_unchanged :
  (forall w api_url,
      fst (AGIdentityClient.new api_url w) = Ok (length (heap w))
      /\ heap (snd (AGIdentityClient.new api_url w))
         = heap w ++ [{["api_url" := default AGID_API api_url]}])
  /\ (forall w self op, heap (snd (invoke self op w)) = heap w)
  /\ (forall w self ops, heap (after self ops w) = heap w).
Proof.
  split; [|split].
  - intros w api_url. by rewrite new_run.
  - intros w self op. apply heap_invoke.
  - intros w self ops. apply heap_after.
Qed.

(** C6: a client built without argument talks to
    [http://localhost:3000], a client built with [base] talks to [base];
    in both cases this holds for every call, however many calls were made
    before. *)
Theorem base_url_default_and_override :
  AGID_API = "http://localhost:3000"
  /\ (forall w ops op,
        calls_of (invoke (length (heap w)) op)
          (after (length (heap w)) ops
             (snd (AGIdentityClient.new None w)))
        = [op_call "http://localhost:3000" op])
  /\ (forall w base ops op,
        calls_of (invoke (length (heap w)) op)
          (after (length (heap w)) ops
             (snd (AGIdentityClient.new (Some base) w)))
        = [op_call base op]).
Proof.
  split; [reflexivity|].
  assert (forall w o ops op,
    calls_of (invoke (length (heap w)) op)
      (after (length (heap w)) ops (snd (AGIdentityClient.new o w)))
    = [op_call (default AGID_API o) op]) as Hall.
  { intros w o ops op. unfold calls_of.
    erewrite issued_invoke; [done|].
    rewrite client_url_after. apply client_url_new. }
  split.
  - intros w ops op. apply (Hall w None).
  - intros w base ops op. apply (Hall w (Some base)).
Qed.
End State.

(** C10: the request an operation builds is a function of the base URL and
    of the arguments: two clients with the same base URL, in any two
    worlds (other objects, other histories, even another service behind
    [requests]), build the same call for the same operation. *)
Theorem request_construction_deterministic
    {Net1 Net2 : Type} (R1 : Requests Net1) (R2 : Requests Net2)
    (w1 : World Net1) (w2 : World Net2) (self1 self2 : addr)
    (base : string) (op : Op) :
  client_url w1 self1 = Some base ->
  client_url w2 self2 = Some base ->
  calls_of (invoke (R:=R1) self1 op) w1 = calls_of (invoke (R:=R2) self2 op) w2
  /\ calls_of (invoke (R:=R1) self1 op) w1 = [op_call base op].
Proof.
  intros H1 H2. unfold calls_of.
  by rewrite (issued_invoke _ _ _ _ H1), (issued_invoke _ _ _ _ H2).
Qed.

(** Witness of C10: a fresh client on a service that cannot be reached, and
    a second client in a world with history, on a service that answers
    differently each time. *)
Lemma request_construction_deterministic_witness :
  calls_of (invoke (R:=unreachable) 0 (Sign (PStr "Hello World") None))
    (configured tt "http://agid.example")
  = calls_of (invoke (R:=counting) 1 (Sign (PStr "Hello World") None))
      (after (R:=counting) 1 [GetIdentity; CheckBalance]
         (snd (AGIdentityClient.new
                 (Some "http://agid.example") (configured 7%nat AGID_API)))).
Proof.
  apply (request_construction_deterministic unreachable counting
           (configured tt "http://agid.example")
           (after (R:=counting) 1 [GetIdentity; CheckBalance]
              (snd (AGIdentityClient.new
                      (Some "http://agid.example")
                      (configured 7%nat AGID_API))))
           0 1 "http://agid.example" (Sign (PStr "Hello World") None));
    vm_compute; reflexivity.
Defined.

(** ** Round trip through the service *)

Lemma string_app_inv_head (s t1 t2 : string) :
  s +:+ t1 = s +:+ t2 -> t1 = t2.
Proof.
  induction s as [|a s IH]; cbn; [done|].
  intros [= E]. by apply IH.
Qed.

Section RoundTrip.
Variable base : string.
Variable Key : Type.
Variable derive : string -> string -> string -> Key.
Variable encipher : Key -> string -> string.
Variable decipher : Key -> string -> option string.

(** The cipher of the service is a correct symmetric cipher: under one
    key, deciphering gives back the non-empty text that was enciphered. *)
Hypothesis decipher_encipher :
  forall key d, d <> EmptyString -> decipher key (encipher key d) = Some d.

Local Abbreviation service :=
  (remote_service base Key derive encipher decipher).

Lemma service_answers_encrypt d p k c n :
  send (R:=service)
    (op_call base
       (Encrypt (PStr d) (Some (PStr p)) (Some (PStr k)) (Some (PStr c)))) n
  = (replies 200 (PDict [("ciphertext", PStr (encipher (derive p k c) d))]),
     n).
Proof.
  unfold send, op_call, remote_service, canned, service_answer. cbn.
  by rewrite decide_True.
Qed.

Lemma service_answers_decrypt x p k c n :
  send (R:=service)
    (op_call base
       (Decrypt (PStr x) (Some (PStr p)) (Some (PStr k)) (Some (PStr c)))) n
  = (match decipher (derive p k c) x with
     | Some d => replies 200 (PDict [("plaintext", PStr d)])
     | None => rejected
     end, n).
Proof.
  unfold send, op_call, remote_service, canned, service_answer. cbn.
  rewrite decide_False, decide_True; [done..|].
  intros E. by apply string_app_inv_head in E.
Qed.

(** C8: against the service of the specification, reachable at the
    client's base URL, [encrypt] of a non-empty text [d] under protocol
    [p], key identifier [k] and counterparty [c] posts exactly these four
    values to [/api/encrypt] and returns the [ciphertext] of the service;
    [decrypt] of that ciphertext under the same [p], [k], [c] posts it with
    the same three labels to [/api/decrypt], so that the service derives
    the same key, and returns a [plaintext] equal to [d].  The two requests
    are the only ones made. *)
Theorem encrypt_decrypt_round_trip (w : World unit) (self : addr)
    (d p k c : string) :
  client_url w self = Some base ->
  d <> EmptyString ->
  let ct := encipher (derive p k c) d in
  let label s := Some (PStr s) in
  fst (AGIdentityClient.encrypt (R:=service) self (PStr d)
         (label p) (label k) (label c) w)
  = Ok (PDict [("ciphertext", PStr ct)])
  /\ fst (AGIdentityClient.decrypt (R:=service) self (PStr ct)
            (label p) (label k) (label c)
            (snd (AGIdentityClient.encrypt (R:=service) self (PStr d)
                    (label p) (label k) (label c) w)))
     = Ok (PDict [("plaintext", PStr d)])
  /\ fst (round_trip (R:=service) self d p k c w) = Ok (PStr d)
  /\ calls_of (round_trip (R:=service) self d p k c) w
     = [mkCall POST (base +:+ "/api/encrypt")
          (Some [("data", PStr d); ("protocol", PStr p);
                 ("keyId", PStr k); ("counterparty", PStr c)]);
        mkCall POST (base +:+ "/api/decrypt")
          (Some [("ciphertext", PStr ct); ("protocol", PStr p);
                 ("keyId", PStr k); ("counterparty", PStr c)])].
Proof.
  intros Hu Hd ct label. subst label. cbv beta.
  assert (decipher (derive p k c) ct = Some d) as Hdec
    by (by apply decipher_encipher).
  pose proof (invoke_run (R:=service) self
    (Encrypt (PStr d) (Some (PStr p)) (Some (PStr k)) (Some (PStr c)))
    w base Hu) as E1.
  rewrite service_answers_encrypt in E1. cbn [invoke fst snd] in E1.
  fold ct in E1.
  match type of E1 with
  | _ = (_, ?w1) =>
      pose proof (invoke_run (R:=service) self
        (Decrypt (PStr ct) (Some (PStr p)) (Some (PStr k)) (Some (PStr c)))
        w1 base Hu) as E2
  end.
  rewrite service_answers_decrypt, Hdec in E2. cbn [invoke fst snd] in E2.
  rewrite E1. cbn [fst snd]. split; [done|].
  rewrite E2. split; [done|].
  assert (round_trip (R:=service) self d p k c w
          = (Ok (PStr d), snd (AGIdentityClient.decrypt (R:=service) self
               (PStr ct) (Some (PStr p)) (Some (PStr k)) (Some (PStr c))
               (snd (AGIdentityClient.encrypt (R:=service) self (PStr d)
                       (Some (PStr p)) (Some (PStr k)) (Some (PStr c)) w)))))
    as Hrt.
  { unfold round_trip. rewrite (bind_ok _ _ _ _ _ E1).
    cbn [decoded replies resp_json].
    unfold getitem at 1. cbn [dict_get]. rewrite decide_True by done.
    unfold ret at 1. erewrite bind_ok by reflexivity.
    rewrite (bind_ok _ _ _ _ _ E2). rewrite E1. cbn [snd]. by rewrite E2. }
  split; [by rewrite Hrt|].
  unfold calls_of, issued. rewrite Hrt, E1. cbn [snd]. rewrite E2.
  cbn [snd wire]. by rewrite <- app_assoc, drop_app_length.
Qed.
End RoundTrip.

Lemma strip_prefix_app (t d : string) : strip_prefix t (t +:+ d) = Some d.
Proof.
  induction t as [|a t IH]; [done|].
  change (strip_prefix (String a t) (String a (t +:+ d)) = Some d).
  cbn. by rewrite decide_True.
Qed.

Lemma toy_decipher_encipher key d :
  d <> EmptyString -> toy_decipher key (toy_encipher key d) = Some d.
Proof. intros _. apply strip_prefix_app. Qed.

(** Witness of C8: the service run with the toy cipher; the same
    ciphertext under another counterparty is refused by that service. *)
Lemma encrypt_decrypt_round_trip_witness :
  (fst (round_trip
          (R:=remote_service AGID_API string toy_derive toy_encipher
                toy_decipher) 0
          "My secret memory" "agent memory" "default" "self"
          (configured tt AGID_API))
   = Ok (PStr "My secret memory")
   /\ calls_of
        (round_trip
           (R:=remote_service AGID_API string toy_derive toy_encipher
                 toy_decipher) 0
           "My secret memory" "agent memory" "default" "self")
        (configured tt AGID_API)
      = [mkCall POST "http://localhost:3000/api/encrypt"
           (Some [("data", PStr "My secret memory");
                  ("protocol", PStr "agent memory");
                  ("keyId", PStr "default");
                  ("counterparty", PStr "self")]);
         mkCall POST "http://localhost:3000/api/decrypt"
           (Some [("ciphertext",
                   PStr "agent memory/default/self:My secret memory");
                  ("protocol", PStr "agent memory");
                  ("keyId", PStr "default");
                  ("counterparty", PStr "self")])])
  /\ fst (AGIdentityClient.decrypt
            (R:=remote_service AGID_API string toy_derive toy_encipher
                  toy_decipher) 0
            (PStr "agent memory/default/self:My secret memory")
            (Some (PStr "agent memory")) (Some (PStr "default"))
            (Some (PStr "someone else")) (configured tt AGID_API))
     = Ok (PDict [("error", PStr "bad request")]).
Proof.
  split; [|reflexivity].
  destruct (encrypt_decrypt_round_trip AGID_API string toy_derive
              toy_encipher toy_decipher toy_decipher_encipher
              (configured tt AGID_API) 0
              "My secret memory" "agent memory" "default" "self")
    as (_ & _ & Hrt & Hcalls).
  - reflexivity.
  - discriminate.
  - split; [exact Hrt | exact Hcalls].
Defined.

(** ** The driver *)

Section Faithful.
Context {Net : Type} {R : Requests Net} {C : Console}.

Lemma faithful_quiet {A} (m : Py Net A) :
  (forall w, wire (snd (m w)) = wire w) -> faithful m.
Proof.
  intros Hq w. exists []. rewrite app_nil_r. split; [apply Hq|].
  intros ex e Hin. by apply elem_of_nil in Hin.
Qed.

Lemma faithful_bind {A B} (m : Py Net A) (k : A -> Py Net B) :
  faithful m -> (forall a, faithful (k a)) -> faithful (bind m k).
Proof.
  intros Hm Hk w. destruct (Hm w) as (l1 & E1 & P1).
  unfold bind. destruct (m w) as [[a|e1] w1] eqn:Em; cbn in E1, P1.
  - destruct (Hk a w1) as (l2 & E2 & P2). exists (l1 ++ l2). split.
    + by rewrite E2, E1, app_assoc.
    + intros ex e [Hin|Hin]%elem_of_app Hf.
      * by specialize (P1 ex e Hin Hf).
      * by apply (P2 ex).
  - exists l1. split; [done|]. cbn. intros ex e Hin Hf.
    by injection (P1 ex e Hin Hf) as ->.
Qed.

Lemma faithful_invoke self op : faithful (invoke self op).
Proof.
  intros w. destruct (client_url w self) as [base|] eqn:Hu.
  - rewrite (invoke_run _ _ _ _ Hu). eexists. split; [reflexivity|].
    intros ex e ->%list_elem_of_singleton. unfold failure. cbn.
    destruct (decoded _); congruence.
  - rewrite (invoke_unbound _ _ _ Hu). exists []. rewrite app_nil_r.
    split; [done|]. intros ex e Hin. by apply elem_of_nil in Hin.
Qed.

Lemma faithful_new api_url :
  faithful (Net:=Net) (AGIdentityClient.new api_url).
Proof. apply faithful_quiet. intros w. by rewrite new_run. Qed.

Lemma faithful_print line : faithful (Net:=Net) (print line).
Proof.
  apply faithful_quiet. intros w. unfold print.
  by destruct (console_write (stdout w) line).
Qed.

Lemma faithful_getitem v key : faithful (Net:=Net) (getitem v key).
Proof.
  apply faithful_quiet. intros w. unfold getitem.
  destruct v; try done. by destruct (dict_get key items).
Qed.

Lemma faithful_slice_to n v : faithful (Net:=Net) (slice_to n v).
Proof. apply faithful_quiet. intros w. by destruct v. Qed.

Lemma faithful_main : faithful main.
Proof.
  unfold main.
  repeat first
    [ apply faithful_print | apply faithful_new | apply faithful_getitem
    | apply faithful_slice_to
    | apply (faithful_invoke _ GetIdentity)
    | apply (faithful_invoke _ (Sign _ _))
    | apply (faithful_invoke _ (Encrypt _ _ _ _))
    | apply (faithful_invoke _ (Decrypt _ _ _ _))
    | apply (faithful_invoke _ CheckBalance)
    | apply faithful_bind; [|intros ?] ].
Qed.
End Faithful.

(** *** One statement of the driver at a time *)

Section Steps.
Context {Net : Type} {R : Requests Net} {C : Console}.
Implicit Types (w : World Net).

Lemma client_url_fresh (n : Net) (h : list Obj) base l o :
  client_url (mkWorld n (h ++ [{["api_url" := base]}]) l o) (length h)
  = Some base.
Proof.
  unfold client_url. cbn.
  rewrite lookup_app_r, Nat.sub_diag by done. cbn.
  by rewrite lookup_singleton_eq.
Qed.

Lemma invoke_cases self op w base :
  client_url w self = Some base ->
  exists out n',
    invoke self op w =
      (decoded out,
       mkWorld n' (heap w)
               (wire w ++ [mkExchange (op_call base op) out]) (stdout w)).
Proof. intros Hu. rewrite (invoke_run _ _ _ _ Hu). by eexists _, _. Qed.

Lemma getitem_found (d : Dict) key v w :
  dict_get key d = Some v -> getitem (PDict d) key w = (Ok v, w).
Proof. intros H. unfold getitem. by rewrite H. Qed.

Lemma getitem_cases v key w :
  (exists d x, v = PDict d /\ dict_get key d = Some x
               /\ getitem v key w = (Ok x, w))
  \/ (exists e, (forall d, v = PDict d -> dict_get key d = None)
                /\ getitem v key w = (Raise e, w)).
Proof.
  destruct v; try (right; by eexists).
  cbn. destruct (dict_get key items) as [x|] eqn:Hx.
  - left. by exists items, x.
  - right. eexists. split; [|done]. by intros d [= <-].
Qed.

Lemma slice_cases n v w :
  (exists x, sliced n v = Some x /\ slice_to n v w = (Ok x, w))
  \/ (exists e, ~ can_slice v /\ slice_to n v w = (Raise e, w)).
Proof.
  destruct v; try (right; eexists; split; [by intros []|done]);
    left; by eexists.
Qed.

Lemma print_cases line w :
  print line w
  = (Ok tt, mkWorld (net w) (heap w) (wire w)
                    (stdout w ++ [mkWrite line None]))
  \/ (exists e,
        print line w
        = (Raise e, mkWorld (net w) (heap w) (wire w)
                            (stdout w ++ [mkWrite line (Some e)]))).
Proof.
  unfold print. destruct (console_write (stdout w) line) as [e|].
  - right. by exists e.
  - by left.
Qed.

Lemma driver_reads_op op :
  driver_reads (op_call AGID_API op)
  = Some match op with
         | GetIdentity => ("publicKey", true)
         | Sign _ _ => ("signature", true)
         | Encrypt _ _ _ _ => ("ciphertext", true)
         | Decrypt _ _ _ _ => ("plaintext", false)
         | CheckBalance => ("balance", false)
         end.
Proof. by destruct op. Qed.
End Steps.

(** Symbolic execution of the driver, one statement at a time, with the
    run so far kept as an equation [Hm : main w = rest world].  Each step
    leaves the branch on which the statement succeeds and hands the branch
    on which it raises to [fin]. *)
Ltac run_call Hm op out v Hd fin :=
  match type of Hm with
  | _ = bind _ _ ?w1 =>
      let E := fresh "E" in
      let n' := fresh "n" in
      let e := fresh "e" in
      destruct (invoke_cases _ op w1 AGID_API (client_url_fresh _ _ _ _ _))
        as (out & n' & E);
      cbn [invoke net heap wire stdout] in E;
      destruct (decoded out) as [v|e] eqn:Hd;
      [ rewrite (bind_ok _ _ _ _ _ E) in Hm; clear E
      | rewrite (bind_raise _ _ _ _ _ E) in Hm; clear E; fin ]
  end.

Ltac run_item Hm d x Hf fin :=
  match type of Hm with
  | _ = bind (getitem ?v ?key) _ ?w1 =>
      let E := fresh "E" in
      let e := fresh "e" in
      let Hno := fresh "Hno" in
      destruct (getitem_cases v key w1)
        as [(d & x & -> & Hf & E)|(e & Hno & E)];
      [ rewrite (bind_ok _ _ _ _ _ E) in Hm; clear E
      | rewrite (bind_raise _ _ _ _ _ E) in Hm; clear E; fin ]
  end.

Ltac run_slice Hm x Hs fin :=
  match type of Hm with
  | _ = bind (slice_to ?n ?v) _ ?w1 =>
      let E := fresh "E" in
      let e := fresh "e" in
      let Hno := fresh "Hno" in
      destruct (slice_cases n v w1) as [(x & Hs & E)|(e & Hno & E)];
      [ rewrite (bind_ok _ _ _ _ _ E) in Hm; clear E
      | rewrite (bind_raise _ _ _ _ _ E) in Hm; clear E; fin ]
  end.

Ltac run_print Hm fin :=
  match type of Hm with
  | _ = bind (print ?line) _ ?w1 =>
      let E := fresh "E" in
      let e := fresh "e" in
      destruct (print_cases line w1) as [E|(e & E)];
      cbn [net heap wire stdout] in E;
      [ rewrite (bind_ok _ _ _ _ _ E) in Hm; clear E
      | rewrite (bind_raise _ _ _ _ _ E) in Hm; clear E; fin ]
  end.

Ltac run_last_print Hm fin :=
  match type of Hm with
  | _ = print ?line ?w1 =>
      let E := fresh "E" in
      let e := fresh "e" in
      destruct (print_cases line w1) as [E|(e & E)];
      cbn [net heap wire stdout] in E;
      rewrite E in Hm; clear E; [ | fin ]
  end.

Ltac run_main Hm w fin :=
  let out1 := fresh "out1" in
  let v1 := fresh "v1" in
  let Hd1 := fresh "Hd1" in
  let d1 := fresh "d1" in
  let pk := fresh "pk" in
  let Hf1 := fresh "Hf1" in
  let pk_ := fresh "pk'" in
  let Hs1 := fresh "Hs1" in
  let out2 := fresh "out2" in
  let v2 := fresh "v2" in
  let Hd2 := fresh "Hd2" in
  let d2 := fresh "d2" in
  let sg := fresh "sg" in
  let Hf2 := fresh "Hf2" in
  let sg_ := fresh "sg'" in
  let Hs2 := fresh "Hs2" in
  let out3 := fresh "out3" in
  let v3 := fresh "v3" in
  let Hd3 := fresh "Hd3" in
  let d3 := fresh "d3" in
  let ct := fresh "ct" in
  let Hf3 := fresh "Hf3" in
  let ct_ := fresh "ct'" in
  let Hs3 := fresh "Hs3" in
  let out4 := fresh "out4" in
  let v4 := fresh "v4" in
  let Hd4 := fresh "Hd4" in
  let d4 := fresh "d4" in
  let pt := fresh "pt" in
  let Hf4 := fresh "Hf4" in
  let out5 := fresh "out5" in
  let v5 := fresh "v5" in
  let Hd5 := fresh "Hd5" in
  let d5 := fresh "d5" in
  let bal := fresh "bal" in
  let Hf5 := fresh "Hf5" in
  pose proof (eq_refl (main w)) as Hm; unfold main at 2 in Hm;
  rewrite (bind_ok _ _ _ _ _ (new_run None w)) in Hm; cbn [default] in Hm;
  run_print Hm fin;
  run_call Hm GetIdentity out1 v1 Hd1 fin;
  run_item Hm d1 pk Hf1 fin;
  run_slice Hm pk_ Hs1 fin;
  run_print Hm fin;
  run_call Hm (Sign (PStr "I am a Python agent with onchain identity") None)
    out2 v2 Hd2 fin;
  run_item Hm d2 sg Hf2 fin;
  run_slice Hm sg_ Hs2 fin;
  run_print Hm fin;
  run_call Hm (Encrypt (PStr "My secret memory") None None None)
    out3 v3 Hd3 fin;
  run_item Hm d3 ct Hf3 fin;
  run_slice Hm ct_ Hs3 fin;
  run_print Hm fin;
  rewrite (bind_ok _ _ _ _ _ (getitem_found _ _ _ _ Hf3)) in Hm;
  run_call Hm (Decrypt ct None (Some (PStr "default")) None)
    out4 v4 Hd4 fin;
  run_item Hm d4 pt Hf4 fin;
  run_print Hm fin;
  run_call Hm CheckBalance out5 v5 Hd5 fin;
  run_item Hm d5 bal Hf5 fin;
  run_print Hm fin;
  run_last_print Hm fin.

(** What a run has on record so far, read off [Hm]. *)
Ltac on_record Hm H :=
  unfold issued, writes in H; rewrite Hm in H; cbn [snd wire stdout] in H;
  rewrite <- ?app_assoc, ?drop_app_length, ?drop_all in H; cbn [app] in H.

Ltac split_forall :=
  repeat match goal with
         | H : Forall _ (_ :: _) |- _ =>
             let H1 := fresh "Hhead" in
             apply Forall_cons_1 in H as [H1 H]
         end.

(** A run that raised, against the record of a run in which every call
    was well answered and every print went out. *)
Ltac clash Hm Hans Hpr :=
  exfalso; on_record Hm Hans; on_record Hm Hpr; split_forall;
  repeat match goal with
         | H : well_answered _ |- _ =>
             let d := fresh "d" in
             let v := fresh "v" in
             let Hdec := fresh "Hdec" in
             let Hfld := fresh "Hfld" in
             let Hsl := fresh "Hsl" in
             unfold well_answered in H; cbn [ex_call ex_outcome] in H;
             rewrite driver_reads_op in H;
             destruct H as (d & Hdec & v & Hfld & Hsl)
         end;
  repeat match goal with
         | H1 : decoded ?o = _, H2 : decoded ?o = _ |- _ =>
             rewrite H1 in H2
         end;
  cbn [w_error] in *; simplify_eq;
  repeat match goal with
         | H : forall d, PDict _ = PDict d -> _ |- _ =>
             specialize (H _ eq_refl)
         end;
  repeat match goal with
         | H1 : dict_get ?k ?d = _, H2 : dict_get ?k ?d = _ |- _ =>
             rewrite H1 in H2
         end;
  simplify_eq; auto.

Section DriverRun.
Context {Net : Type} {R : Requests Net} {C : Console}.

(** C7, as the code has it: the driver catches nothing.  When every call
    it makes succeeds with a JSON object that has the field the driver
    reads (for [publicKey], [signature] and [ciphertext] a value that can
    be sliced) and the console takes every text it prints, it makes its
    five calls in order, the ciphertext it decrypts being the one it was
    given back, and the process exits with status 0.  Whenever a call
    fails, the process exits with status 1 and that call's exception as
    traceback. *)
Theorem driver_exit_status (w : World Net) :
  (Forall well_answered (issued main w) ->
   Forall (fun x => w_error x = None) (writes main w) ->
     fst (run_script w) = mkExit 0 None
     /\ exists d3 ct,
         (decoded <$> outcomes main w) !! 2%nat = Some (Ok (PDict d3))
         /\ dict_get "ciphertext" d3 = Some ct
         /\ calls_of main w =
              [op_call AGID_API GetIdentity;
               op_call AGID_API
                 (Sign (PStr "I am a Python agent with onchain identity")
                    None);
               op_call AGID_API
                 (Encrypt (PStr "My secret memory") None None None);
               op_call AGID_API
                 (Decrypt ct None (Some (PStr "default")) None);
               op_call AGID_API CheckBalance])
  /\ (forall ex e,
        ex ∈ issued main w -> failure ex = Some e ->
        fst (run_script w) = mkExit 1 (Some e)).
Proof.
  split.
  - intros Hans Hpr.
    run_main Hm w ltac:(clash Hm Hans Hpr).
    unfold run_script, outcomes, calls_of, issued. rewrite Hm.
    cbn [snd wire fst]. rewrite <- !app_assoc, drop_app_length.
    split; [done|]. exists d3, ct. cbn. by rewrite Hd3.
  - intros ex e Hin Hf. destruct (faithful_main w) as (l & Hw & Hl).
    rewrite (issued_extends _ _ _ Hw) in Hin.
    specialize (Hl ex e Hin Hf). unfold run_script.
    destruct (main w) as [[[]|e'] w']; cbn in Hl; [done|].
    by injection Hl as ->.
Qed.
End DriverRun.

(** C7 as stated fails: on a service that answers every request with
    status 200 and [{}], every operation of the client succeeds, the one
    call the driver makes succeeds, and yet the process exits with status 1:
    [identity['publicKey']] raises [KeyError]. *)
Lemma driver_fails_though_no_call_fails :
  (forall op w self base,
      client_url w self = Some base ->
      fst (invoke (R:=bare) self op w) = Ok (PDict []))
  /\ calls_of (main (R:=bare) (C:=lenient)) (boot tt)
     = [mkCall GET "http://localhost:3000/api/identity" None]
  /\ map failure (issued (main (R:=bare) (C:=lenient)) (boot tt)) = [None]
  /\ fst (run_script (R:=bare) (C:=lenient) (boot tt))
     = mkExit 1 (Some (KeyError "publicKey")).
Proof.
  split; [|by vm_compute].
  intros op w self base Hu. rewrite (result_invoke _ _ _ _ Hu).
  by destruct op.
Qed.

Ltac answered :=
  repeat first
    [ apply Forall_nil_2
    | apply Forall_cons_2;
      [ first [ reflexivity
              | eexists; split; [reflexivity|]; cbn;
                eexists; split; [reflexivity|]; by intros ]
      | ] ].

(** Witness of C7: the driver against the demo service, against the same
    service when it goes away after the fifth answer, and against nothing
    at all. *)
Lemma driver_exit_status_witness :
  fst (run_script (R:=demo) (C:=lenient) (boot tt)) = mkExit 0 None
  /\ fst (run_script (R:=flaky) (C:=lenient) (boot 5%nat)) = mkExit 0 None
  /\ fst (run_script (R:=unreachable) (C:=lenient) (boot tt))
     = mkExit 1 (Some ConnectionError).
Proof.
  split; [|split].
  - apply (proj1 (driver_exit_status (R:=demo) (C:=lenient) (boot tt)));
      vm_compute; answered.
  - apply (proj1 (driver_exit_status (R:=flaky) (C:=lenient) (boot 5%nat)));
      vm_compute; answered.
  - apply (proj2 (driver_exit_status (R:=unreachable) (C:=lenient) (boot tt))
             (mkExchange (mkCall GET "http://localhost:3000/api/identity" None)
                (inl ConnectionError))
             ConnectionError).
    + apply list_elem_of_here.
    + reflexivity.
Defined.

(** * Further properties of the client *)

Section Composition.
Context {Net : Type} {R : Requests Net}.
Implicit Types (w : World Net) (self : addr) (base : string).

Lemma wire_after self base ops w :
  client_url w self = Some base ->
  exists l,
    wire (after self ops w) = wire w ++ l
    /\ map ex_call l = map (op_call base) ops.
Proof.
  revert w. induction ops as [|op ops IH]; intros w Hu.
  - exists []. by rewrite app_nil_r.
  - cbn. fold (after self ops (snd (invoke self op w))).
    destruct (IH (snd (invoke self op w))) as (l & Hl & Hc).
    { unfold client_url. rewrite heap_invoke. exact Hu. }
    rewrite Hl, (invoke_run _ _ _ _ Hu). cbn.
    eexists (_ :: l). rewrite <- app_assoc. split; [reflexivity|].
    cbn. by rewrite Hc.
Qed.

(** The calls of a sequence of operations on one client are made one by one
    in the order of the operations, one request for each, whatever the
    earlier ones returned or raised: nothing is cached, batched, retried or
    skipped. *)
Theorem requests_follow_calls w self base ops :
  client_url w self = Some base ->
  map ex_call (drop (length (wire w)) (wire (after self ops w)))
  = map (op_call base) ops.
Proof.
  intros Hu. destruct (wire_after self base ops w Hu) as (l & -> & Hl).
  by rewrite drop_app_length.
Qed.

Lemma heap_interleaved calls w :
  heap (interleaved calls w) = heap w.
Proof.
  revert w. induction calls as [|[s op] calls IH]; intros w; [done|].
  cbn. fold (interleaved calls (snd (invoke s op w))).
  rewrite IH. apply heap_invoke.
Qed.

(** Two clients built one after the other with their own base URLs are
    different objects, and however calls on them (or on anything else) are
    interleaved afterwards, each client keeps sending to its own base
    URL. *)
Theorem clients_do_not_interfere w base1 base2 calls op :
  let a := length (heap w) in
  let w1 := snd (AGIdentityClient.new (Some base1) w) in
  let b := length (heap w1) in
  let w2 := snd (AGIdentityClient.new (Some base2) w1) in
  a <> b
  /\ calls_of (invoke a op) (interleaved calls w2) = [op_call base1 op]
  /\ calls_of (invoke b op) (interleaved calls w2) = [op_call base2 op].
Proof.
  cbn zeta. rewrite !new_run. cbn [snd heap default].
  rewrite length_app. cbn [length]. split; [lia|].
  unfold calls_of. split.
  - erewrite issued_invoke; [done|].
    unfold client_url. rewrite heap_interleaved. cbn [heap].
    rewrite lookup_app_l by (rewrite length_app; cbn; lia).
    rewrite lookup_app_r, Nat.sub_diag by done. cbn.
    by rewrite lookup_singleton_eq.
  - erewrite issued_invoke; [done|].
    unfold client_url. rewrite heap_interleaved. cbn [heap].
    rewrite lookup_app_r by (rewrite length_app; cbn; lia).
    rewrite length_app. cbn [length].
    replace (length (heap w) + 1 - (length (heap w) + 1))%nat with 0%nat
      by lia.
    cbn. by rewrite lookup_singleton_eq.
Qed.

(** No operation prints: whatever its arguments and outcome, the console is
    as it was. *)
Theorem operations_do_not_print w self op :
  printed (invoke self op) w = [] /\ stdout (snd (invoke self op w)) = stdout w.
Proof.
  assert (stdout (snd (invoke self op w)) = stdout w) as H.
  { destruct (client_url w self) as [base|] eqn:Hu.
    - by rewrite (invoke_run _ _ _ _ Hu).
    - by rewrite (invoke_unbound _ _ _ Hu). }
  split; [|done]. unfold printed, writes. by rewrite H, drop_all.
Qed.

(** On an instance that has no [api_url] attribute every operation raises
    [AttributeError] while it builds the URL: no request is made and the
    world is left as it was. *)
Theorem unconfigured_client_sends_nothing w self op :
  client_url w self = None ->
  invoke self op w = (Raise (AttributeError "api_url"), w)
  /\ calls_of (invoke self op) w = [].
Proof.
  intros Hu. rewrite (invoke_unbound _ _ _ Hu). split; [done|].
  unfold calls_of, issued. rewrite (invoke_unbound _ _ _ Hu). cbn.
  by rewrite drop_all.
Qed.
End Composition.

(** A process that has created no client yet. *)
Lemma unconfigured_client_sends_nothing_witness :
  invoke (R:=mocked) 0 (Sign (PStr "Hello World") None) (boot tt)
  = (Raise (AttributeError "api_url"), boot tt)
  /\ calls_of (invoke (R:=mocked) 0 (Sign (PStr "Hello World") None))
       (boot tt) = [].
Proof.
  apply (unconfigured_client_sends_nothing (R:=mocked) (boot tt) 0
           (Sign (PStr "Hello World") None)).
  reflexivity.
Defined.

(** [get_identity] three times in a row: three requests. *)
Lemma requests_follow_calls_witness :
  map ex_call
    (drop (length (wire (configured 0%nat AGID_API)))
       (wire (after (R:=counting) 0 [GetIdentity; GetIdentity; GetIdentity]
                (configured 0%nat AGID_API))))
  = [mkCall GET "http://localhost:3000/api/identity" None;
     mkCall GET "http://localhost:3000/api/identity" None;
     mkCall GET "http://localhost:3000/api/identity" None].
Proof.
  apply (requests_follow_calls (R:=counting) (configured 0%nat AGID_API) 0
           AGID_API [GetIdentity; GetIdentity; GetIdentity]).
  reflexivity.
Defined.

Lemma string_app_assoc (s t u : string) :
  (s +:+ t) +:+ u = s +:+ (t +:+ u).
Proof.
  induction s as [|a s IH]; [done|].
  change (String a ((s +:+ t) +:+ u) = String a (s +:+ (t +:+ u))).
  by rewrite IH.
Qed.

Lemma op_call_explicit base op :
  op_call base (explicit op) = op_call base op.
Proof. by destruct op. Qed.

Section Requests2.
Context {Net : Type} {R : Requests Net}.
Implicit Types (w : World Net) (self : addr) (base : string).

(** Two calls on a client put the same request on the wire exactly when
    they are the same operation with the same arguments once the omitted
    keywords are filled in: no two operations share a request, and no
    argument is dropped or merged with another on the way. *)
Theorem same_request_same_call w self base op1 op2 :
  client_url w self = Some base ->
  calls_of (invoke self op1) w = calls_of (invoke self op2) w
  <-> explicit op1 = explicit op2.
Proof.
  intros Hu. unfold calls_of.
  rewrite !(issued_invoke _ _ _ _ Hu). cbn. split.
  - intros [= E].
    destruct op1, op2; try reflexivity; cbn in E; injection E; intros;
      repeat match goal with
      | H : base +:+ _ = base +:+ _ |- _ =>
          apply string_app_inv_head in H; try discriminate H; clear H
      end; try discriminate; cbn; congruence.
  - intros E. f_equal.
    by rewrite <- (op_call_explicit base op1), E, op_call_explicit.
Qed.

(** The base URL is used as it is: the path is appended to it without any
    care for a slash at its end, so a base written with a trailing slash
    gives URLs with a double slash. *)
Theorem base_url_is_used_verbatim w self b :
  client_url w self = Some (b +:+ "/") ->
  targets (AGIdentityClient.get_identity self) w
    = [(GET, b +:+ "//api/identity")]
  /\ (forall m p,
        targets (AGIdentityClient.sign self m p) w
        = [(POST, b +:+ "//api/sign")])
  /\ (forall d p k c,
        targets (AGIdentityClient.encrypt self d p k c) w
        = [(POST, b +:+ "//api/encrypt")])
  /\ (forall x p k c,
        targets (AGIdentityClient.decrypt self x p k c) w
        = [(POST, b +:+ "//api/decrypt")])
  /\ targets (AGIdentityClient.check_balance self) w
      = [(GET, b +:+ "//api/balance")].
Proof.
  intros Hu.
  assert (forall op, targets (invoke self op) w
                     = [(c_method (op_call (b +:+ "/") op),
                         c_url (op_call (b +:+ "/") op))]) as H.
  { intros op. unfold targets, calls_of. by rewrite (issued_invoke _ _ _ _ Hu). }
  split; [|split; [|split; [|split]]]; intros.
  - pose proof (H GetIdentity) as E. cbn in E.
    by rewrite string_app_assoc in E.
  - pose proof (H (Sign m p)) as E. cbn in E.
    by rewrite string_app_assoc in E.
  - pose proof (H (Encrypt d p k c)) as E. cbn in E.
    by rewrite string_app_assoc in E.
  - pose proof (H (Decrypt x p k c)) as E. cbn in E.
    by rewrite string_app_assoc in E.
  - pose proof (H CheckBalance) as E. cbn in E.
    by rewrite string_app_assoc in E.
Qed.
End Requests2.

(** [sign(m)] and [sign(m, protocol="agent message")] are one request;
    [encrypt(m)] is another. *)
Lemma same_request_same_call_witness :
  (calls_of (invoke (R:=bare) 0 (Sign (PStr "m") None))
     (configured tt AGID_API)
   = calls_of (invoke (R:=bare) 0
                 (Sign (PStr "m") (Some (PStr "agent message"))))
       (configured tt AGID_API))
  /\ (calls_of (invoke (R:=bare) 0 (Sign (PStr "m") None))
        (configured tt AGID_API)
      <> calls_of (invoke (R:=bare) 0 (Encrypt (PStr "m") None None None))
           (configured tt AGID_API)).
Proof.
  split.
  - apply (same_request_same_call (R:=bare) (configured tt AGID_API) 0
             AGID_API (Sign (PStr "m") None)
             (Sign (PStr "m") (Some (PStr "agent message"))) eq_refl).
    reflexivity.
  - intros E.
    apply (same_request_same_call (R:=bare) (configured tt AGID_API) 0
             AGID_API (Sign (PStr "m") None)
             (Encrypt (PStr "m") None None None) eq_refl) in E.
    discriminate E.
Defined.

(** A base URL written with its final slash. *)
Lemma base_url_is_used_verbatim_witness :
  targets (AGIdentityClient.get_identity (R:=bare) 0)
    (configured tt "http://localhost:3000/")
  = [(GET, "http://localhost:3000//api/identity")].
Proof.
  exact (proj1 (base_url_is_used_verbatim (R:=bare)
                  (configured tt "http://localhost:3000/") 0
                  "http://localhost:3000" eq_refl)).
Defined.

(** * Further properties of the driver *)

(** ** Characters *)

Lemma take_chars_count n s :
  char_count (take_chars n s) = Nat.min n (char_count s).
Proof.
  revert n. induction s as [|a s IH]; intros n; cbn.
  - by rewrite Nat.min_0_r.
  - destruct (is_continuation a) eqn:Ha; cbn; rewrite ?Ha; [apply IH|].
    destruct n as [|n]; cbn; [done|]. rewrite Ha. by rewrite IH.
Qed.

Lemma take_chars_prefix n s : exists t, s = take_chars n s +:+ t.
Proof.
  revert n. induction s as [|a s IH]; intros n; cbn.
  - by exists EmptyString.
  - destruct (is_continuation a).
    + destruct (IH n) as [t Ht]. exists t.
      change (String a s = String a (take_chars n s +:+ t)).
      by rewrite <- Ht.
    + destruct n as [|n]; [by eexists|].
      destruct (IH n) as [t Ht]. exists t.
      change (String a s = String a (take_chars n s +:+ t)).
      by rewrite <- Ht.
Qed.

(** Forty times [é], two bytes each: the first 32 characters are 64
    bytes. *)
Example take_chars_two_byte_characters :
  let e40 := String.concat EmptyString (replicate 40 "é") in
  String.length e40 = 80%nat
  /\ char_count e40 = 40%nat
  /\ take_chars 32 e40 = String.concat EmptyString (replicate 32 "é")
  /\ String.length (take_chars 32 e40) = 64%nat.
Proof. by vm_compute. Qed.

Section DriverPaths.
Context {Net : Type} {R : Requests Net} {C : Console}.
Implicit Types (w : World Net).

Local Ltac calls_so_far Hm :=
  unfold targets, calls_of, issued; rewrite Hm; cbn [snd wire];
  rewrite <- ?app_assoc, ?drop_app_length, ?drop_all.

(** Whatever the service does, the requests of the driver are a beginning
    of the same five, in the same order: identity, sign, encrypt, decrypt,
    balance, all on the default base URL. *)
Theorem driver_calls_in_order w :
  targets main w `prefix_of`
    [(GET, "http://localhost:3000/api/identity");
     (POST, "http://localhost:3000/api/sign");
     (POST, "http://localhost:3000/api/encrypt");
     (POST, "http://localhost:3000/api/decrypt");
     (GET, "http://localhost:3000/api/balance")].
Proof.
  run_main Hm w ltac:(calls_so_far Hm; by eexists).
  calls_so_far Hm. by eexists.
Qed.

Local Ltac last_call Hm Hi Hf :=
  unfold issued in Hi |- *; rewrite Hm in Hi |- *;
  cbn [snd wire] in Hi |- *;
  rewrite <- ?app_assoc, ?drop_app_length, ?drop_all in Hi |- *;
  match type of Hi with
  | _ !! ?i = _ =>
      destruct i as [|[|[|[|[|i]]]]]; cbn in Hi; try discriminate Hi;
      injection Hi as <-; try reflexivity;
      exfalso; unfold failure in Hf; cbn [ex_outcome] in Hf;
      match goal with
      | H : decoded _ = Ok _ |- _ => rewrite H in Hf; discriminate Hf
      end
  end.

(** A call that fails is the last request the driver makes. *)
Theorem driver_stops_at_first_failure w i ex e :
  issued main w !! i = Some ex ->
  failure ex = Some e ->
  S i = length (issued main w).
Proof.
  intros Hi Hf.
  run_main Hm w ltac:(last_call Hm Hi Hf).
  last_call Hm Hi Hf.
Qed.

Local Ltac not_ok Hm Hok := rewrite Hm in Hok; discriminate Hok.

Lemma main_ok_inv w :
  fst (main w) = Ok tt ->
  exists d1 d2 d3 d4 d5 pk pk' sg sg' ct ct' pt bal,
    decoded <$> outcomes main w
    = [Ok (PDict d1); Ok (PDict d2); Ok (PDict d3); Ok (PDict d4);
       Ok (PDict d5)]
    /\ (dict_get "publicKey" d1 = Some pk /\ sliced 32 pk = Some pk')
    /\ (dict_get "signature" d2 = Some sg /\ sliced 64 sg = Some sg')
    /\ (dict_get "ciphertext" d3 = Some ct /\ sliced 64 ct = Some ct')
    /\ dict_get "plaintext" d4 = Some pt
    /\ dict_get "balance" d5 = Some bal
    /\ calls_of main w =
         [op_call AGID_API GetIdentity;
          op_call AGID_API
            (Sign (PStr "I am a Python agent with onchain identity") None);
          op_call AGID_API (Encrypt (PStr "My secret memory") None None None);
          op_call AGID_API (Decrypt ct None (Some (PStr "default")) None);
          op_call AGID_API CheckBalance]
    /\ printed main w =
         [[Lit ("🤖 Python Agent with AGIdentity" +:+ nl)];
          [Lit "✅ Identity: "; Fmt pk'; Lit "..."];
          [Lit "✅ Signed: "; Fmt sg'; Lit "..."];
          [Lit "✅ Encrypted: "; Fmt ct'; Lit "..."];
          [Lit "✅ Decrypted: "; Fmt pt];
          [Lit "✅ Balance: "; Fmt bal; Lit (" satoshis" +:+ nl)];
          [Lit "🔌 Universal plugin working with Python!"]]
    /\ writes main w = (fun line => mkWrite line None) <$> printed main w.
Proof.
  intros Hok.
  run_main Hm w ltac:(not_ok Hm Hok).
  exists d1, d2, d3, d4, d5, pk, pk', sg, sg', ct, ct', pt, bal.
  unfold outcomes, calls_of, issued, printed, writes. rewrite Hm.
  cbn [snd wire stdout]. rewrite <- !app_assoc, !drop_app_length. cbn.
  by rewrite Hd1, Hd2, Hd3, Hd4, Hd5.
Qed.

Lemma exit_zero_ok w :
  exit_status (fst (run_script w)) = 0 -> fst (main w) = Ok tt.
Proof.
  unfold run_script. by destruct (main w) as [[[]|e] w'].
Qed.

(** Exit status 0 certifies the five endpoints: the driver then made its
    five calls, each was answered with a JSON object that has the field the
    driver reads ([publicKey], [signature] and [ciphertext] being values
    that can be sliced), and the ciphertext sent to [/api/decrypt] is the
    whole [ciphertext] field of the answer of [/api/encrypt], although only
    64 characters of it are printed. *)
Theorem exit_zero_certifies_five_answers w :
  exit_status (fst (run_script w)) = 0 ->
  exists d1 d2 d3 d4 d5 pk sg ct pt bal,
    decoded <$> outcomes main w
    = [Ok (PDict d1); Ok (PDict d2); Ok (PDict d3); Ok (PDict d4);
       Ok (PDict d5)]
    /\ (dict_get "publicKey" d1 = Some pk /\ is_Some (sliced 32 pk))
    /\ (dict_get "signature" d2 = Some sg /\ is_Some (sliced 64 sg))
    /\ (dict_get "ciphertext" d3 = Some ct /\ is_Some (sliced 64 ct))
    /\ dict_get "plaintext" d4 = Some pt
    /\ dict_get "balance" d5 = Some bal
    /\ calls_of main w =
         [op_call AGID_API GetIdentity;
          op_call AGID_API
            (Sign (PStr "I am a Python agent with onchain identity") None);
          op_call AGID_API (Encrypt (PStr "My secret memory") None None None);
          op_call AGID_API (Decrypt ct None (Some (PStr "default")) None);
          op_call AGID_API CheckBalance].
Proof.
  intros H0.
  destruct (main_ok_inv w (exit_zero_ok w H0))
    as (d1 & d2 & d3 & d4 & d5 & pk & pk' & sg & sg' & ct & ct' & pt & bal
        & Ho & [Hpk Hpk'] & [Hsg Hsg'] & [Hct Hct'] & Hpt & Hbal & Hc & _
        & _).
  exists d1, d2, d3, d4, d5, pk, sg, ct, pt, bal.
  rewrite Hpk', Hsg', Hct'. by repeat split.
Qed.




End DriverPaths.

(** The service goes away after two answers: the third request is the
    last. *)
Lemma driver_stops_at_first_failure_witness :
  length (issued (main (R:=flaky) (C:=lenient)) (boot 2%nat)) = 3%nat.
Proof.
  symmetry.
  apply (driver_stops_at_first_failure (R:=flaky) (C:=lenient)
           (boot 2%nat) 2
           (mkExchange
              (op_call AGID_API
                 (Encrypt (PStr "My secret memory") None None None))
              (inl ConnectionError))
           ConnectionError); reflexivity.
Defined.

(** The driver against the demo service. *)
Lemma exit_zero_certifies_five_answers_witness :
  exists d1 d2 d3 d4 d5 pk sg ct pt bal,
    decoded <$> outcomes (main (R:=demo) (C:=lenient)) (boot tt)
    = [Ok (PDict d1); Ok (PDict d2); Ok (PDict d3); Ok (PDict d4);
       Ok (PDict d5)]
    /\ (dict_get "publicKey" d1 = Some pk /\ is_Some (sliced 32 pk))
    /\ (dict_get "signature" d2 = Some sg /\ is_Some (sliced 64 sg))
    /\ (dict_get "ciphertext" d3 = Some ct /\ is_Some (sliced 64 ct))
    /\ dict_get "plaintext" d4 = Some pt
    /\ dict_get "balance" d5 = Some bal
    /\ calls_of (main (R:=demo) (C:=lenient)) (boot tt) =
         [op_call AGID_API GetIdentity;
          op_call AGID_API
            (Sign (PStr "I am a Python agent with onchain identity") None);
          op_call AGID_API (Encrypt (PStr "My secret memory") None None None);
          op_call AGID_API (Decrypt ct None (Some (PStr "default")) None);
          op_call AGID_API CheckBalance].
Proof.
  apply (exit_zero_certifies_five_answers (R:=demo) (C:=lenient) (boot tt)).
  reflexivity.
Defined.


(** Of the forty [é] of that public key, 32 are printed. *)
Example driver_prints_32_characters :
  printed (main (R:=canned accented_answer) (C:=lenient)) (boot tt) !! 1%nat
  = Some [Lit "✅ Identity: ";
          Fmt (PStr (String.concat EmptyString (replicate 32 "é")));
          Lit "..."].
Proof. by vm_compute. Qed.

(** On a console with the ASCII encoding the banner does not go out:
    nothing is printed, no request is made, and the process exits with
    status 1. *)
Example driver_on_ascii_console :
  printed (main (R:=demo) (C:=ascii_terminal)) (boot tt) = []
  /\ issued (main (R:=demo) (C:=ascii_terminal)) (boot tt) = []
  /\ fst (run_script (R:=demo) (C:=ascii_terminal) (boot tt))
     = mkExit 1 (Some UnicodeEncodeError).
Proof. by vm_compute. Qed.
